(** * rustify: Result, Option and the function-wrapping adapter

    A shallow embedding of the TypeScript sources of [ghaerdi/rustify]:
    - [option.ts]            (module [OptionTs]),
    - the earlier [result.ts] whose [ok()]/[err()] return an [Option]
      (module [Earlier]),
    - the later [src/result.ts] with the full combinator surface and
      [wrapInResult] (module [Later]).

    JavaScript values are modelled as finite trees whose object nodes carry
    the location they were allocated at, so that structural equality and
    reference identity are two different relations.  Code runs in a small
    state-and-exception monad over a [World] holding the allocation counter,
    the engine's current stack text and a journal of observable effects. *)

From Stdlib Require Import List String Ascii ZArith Lia Bool Arith PeanoNat.
Import ListNotations.
Set Warnings "-register-all".
Local Open Scope string_scope.
Local Open Scope list_scope.

(* ===================================================================== *)
(** ** The JavaScript platform the library runs on *)
(* ===================================================================== *)

Module JS.

(** Object identity: the address an object was allocated at. *)
Definition loc := nat.

(** Runtime values.  Primitives have no identity; arrays, plain objects,
    [Error] instances and functions do.  [VNumber] covers the integer-valued
    numbers, which is all the library's own code ever inspects.  Values are
    finite trees: the library never mutates a wrapped value, so a snapshot
    is enough; cyclic object graphs are outside the model. *)
Inductive Value : Type :=
| VUndefined
| VNull
| VBool (b : bool)
| VNumber (n : Z)
| VString (s : string)
| VArray (self : loc) (elems : list Value)
| VObject (self : loc) (fields : list (string * Value))
| VError (self : loc) (message : string)
| VFunction (self : loc) (name : string).

(** Induction principle that reaches inside arrays and objects. *)
Section ValueInd.
Variable P : Value -> Prop.
Hypothesis HUndefined : P VUndefined.
Hypothesis HNull : P VNull.
Hypothesis HBool : forall b, P (VBool b).
Hypothesis HNumber : forall n, P (VNumber n).
Hypothesis HString : forall s, P (VString s).
Hypothesis HArray : forall l vs, Forall P vs -> P (VArray l vs).
Hypothesis HObject :
  forall l fs, Forall (fun kv => P (snd kv)) fs -> P (VObject l fs).
Hypothesis HError : forall l m, P (VError l m).
Hypothesis HFunction : forall l n, P (VFunction l n).

Fixpoint Value_deep_ind (v : Value) : P v :=
  match v with
  | VUndefined => HUndefined
  | VNull => HNull
  | VBool b => HBool b
  | VNumber n => HNumber n
  | VString s => HString s
  | VArray l vs =>
      HArray l vs
        ((fix go (xs : list Value) : Forall P xs :=
            match xs with
            | [] => Forall_nil _
            | x :: xs' => Forall_cons _ (Value_deep_ind x) (go xs')
            end) vs)
  | VObject l fs =>
      HObject l fs
        ((fix go (xs : list (string * Value))
            : Forall (fun kv => P (snd kv)) xs :=
            match xs with
            | [] => Forall_nil _
            | x :: xs' => Forall_cons _ (Value_deep_ind (snd x)) (go xs')
            end) fs)
  | VError l m => HError l m
  | VFunction l n => HFunction l n
  end.
End ValueInd.

(** Pointwise comparison of two lists of the same length. *)
Fixpoint all2 {A : Type} (same : A -> A -> bool) (xs ys : list A) : bool :=
  match xs, ys with
  | [], [] => true
  | x :: xs', y :: ys' => same x y && all2 same xs' ys'
  | _, _ => false
  end.

(** Every location occurring in a value, outermost first. *)
Fixpoint locs (v : Value) : list loc :=
  match v with
  | VArray l vs => l :: flat_map locs vs
  | VObject l fs => l :: flat_map (fun kv => locs (snd kv)) fs
  | VError l _ => [l]
  | VFunction l _ => [l]
  | _ => []
  end.

(** Structural (deep) equality: same shape and same primitive leaves,
    whatever the locations.  This is what [toEqual] compares. *)
Fixpoint structEq (a b : Value) : bool :=
  match a, b with
  | VUndefined, VUndefined => true
  | VNull, VNull => true
  | VBool x, VBool y => Bool.eqb x y
  | VNumber x, VNumber y => Z.eqb x y
  | VString x, VString y => String.eqb x y
  | VArray _ xs, VArray _ ys => all2 structEq xs ys
  | VObject _ xs, VObject _ ys =>
      all2 (fun kx ky => String.eqb (fst kx) (fst ky)
                         && structEq (snd kx) (snd ky)) xs ys
  | VError _ m, VError _ m' => String.eqb m m'
  | VFunction _ n, VFunction _ n' => String.eqb n n'
  | _, _ => false
  end.

(** What the program can observe of a run besides its result. *)
Inductive Event : Type :=
| ConsoleWarn (args : list Value)          (* console.warn(...args) *)
| Invoked (tag : string) (arg : Value).    (* a tracked callback ran *)

Record World : Type := mkWorld {
  next_loc : loc;                 (* allocation counter: every loc below is taken *)
  stackText : option string;      (* what [new Error().stack] reads right now *)
  journal : list Event            (* effects so far, oldest first *)
}.

(** How a call ends: with a value, or by a [throw]. *)
Inductive Outcome (A : Type) : Type :=
| Returned (a : A)
| Thrown (exn : Value).
Arguments Returned {A} a.
Arguments Thrown {A} exn.

(** Computations: the world is threaded through, and survives a throw. *)
Definition Eff (A : Type) : Type := World -> Outcome A * World.

Definition ret {A} (a : A) : Eff A := fun w => (Returned a, w).

Definition bind {A B} (m : Eff A) (k : A -> Eff B) : Eff B :=
  fun w =>
    match m w with
    | (Returned a, w') => k a w'
    | (Thrown e, w') => (Thrown e, w')
    end.

Definition throw {A} (e : Value) : Eff A := fun w => (Thrown e, w).

(** [try { body } catch (e) { handler e }] *)
Definition try_catch {A} (body : Eff A) (handler : Value -> Eff A) : Eff A :=
  fun w =>
    match body w with
    | (Returned a, w') => (Returned a, w')
    | (Thrown e, w') => handler e w'
    end.

(** Allocation of a fresh location. *)
Definition alloc : Eff loc :=
  fun w => (Returned (next_loc w),
            mkWorld (S (next_loc w)) (stackText w) (journal w)).

Definition emit (ev : Event) : Eff unit :=
  fun w => (Returned tt,
            mkWorld (next_loc w) (stackText w) (journal w ++ [ev])).

Definition readStack : Eff (option string) :=
  fun w => (Returned (stackText w), w).

Declare Scope eff_scope.
Delimit Scope eff_scope with eff.
Notation "x <- m ;; k" := (bind m (fun x => k))
  (at level 61, m at next level, right associativity) : eff_scope.
Notation "m ;;; k" := (bind m (fun _ => k))
  (at level 61, right associativity) : eff_scope.
Local Open Scope eff_scope.

(** *** Strings *)

(** The line feed, as in the literal ['\n']. *)
Definition LF : string := String (ascii_of_nat 10) EmptyString.

(** [s.split('\n')]: the pieces between line feeds; one (empty) piece for
    the empty string. *)
Fixpoint split_lines (s : string) : list string :=
  match s with
  | EmptyString => [EmptyString]
  | String c rest =>
      if Ascii.eqb c (ascii_of_nat 10) then EmptyString :: split_lines rest
      else match split_lines rest with
           | [] => [String c EmptyString]
           | piece :: pieces => String c piece :: pieces
           end
  end.

(** [lines.join('\n')] *)
Definition join_lines (lines : list string) : string := String.concat LF lines.

(** [hay.includes(needle)] *)
Fixpoint includes (needle hay : string) : bool :=
  String.prefix needle hay ||
  match hay with
  | EmptyString => false
  | String _ hay' => includes needle hay'
  end.

(** [s.startsWith(p)] *)
Definition startsWith (p s : string) : bool := String.prefix p s.

(** Truthiness of a string: only the empty string is falsy. *)
Definition truthy_string (s : string) : bool :=
  match s with EmptyString => false | _ => true end.

(** *** Built-in objects *)

(** [new Error(message)] *)
Definition newError (message : string) : Eff Value :=
  self <- alloc ;; ret (VError self message).

(** [throw new Error(message)] *)
Definition throwError {A} (message : string) : Eff A :=
  e <- newError message ;; throw e.

(** [new Error().stack]: a probe object is allocated and the engine's stack
    text read off it. *)
Definition captureStack : Eff (option string) :=
  _ <- newError "" ;; readStack.

(** [console.warn(...args)] *)
Definition console_warn (args : list Value) : Eff unit :=
  emit (ConsoleWarn args).

(** [typeof v] *)
Definition typeof (v : Value) : string :=
  match v with
  | VUndefined => "undefined"
  | VNull => "object"
  | VBool _ => "boolean"
  | VNumber _ => "number"
  | VString _ => "string"
  | VFunction _ _ => "function"
  | VArray _ _ | VObject _ _ | VError _ _ => "object"
  end.

(** [error instanceof Error] *)
Definition instanceofError (v : Value) : bool :=
  match v with VError _ _ => true | _ => false end.

(** [Symbol.iterator in Object(v)]: arrays carry the method on their
    prototype, and so do the wrapper objects of strings; nothing else in
    this universe does. *)
Definition hasSymbolIterator (v : Value) : bool :=
  match v with
  | VArray _ _ | VString _ => true
  | _ => false
  end.

(** *** Iteration protocol *)

(** Live iterators.  [EmptyIterator] is the object literal
    [{ next() { return { done: true, value: undefined } } }] that the
    library returns when there is nothing to iterate. *)
Inductive Iterator : Type :=
| ArrayIterator (target : list Value) (nextIndex : nat)
| StringIterator (target : string) (nextIndex : nat)
| EmptyIterator.

Record IteratorResult : Type := mkIteratorResult {
  done : bool;
  value : Value
}.

(** [it.next()]: the result and the iterator after the call. *)
Definition next (it : Iterator) : IteratorResult * Iterator :=
  match it with
  | ArrayIterator target i =>
      match nth_error target i with
      | Some v => (mkIteratorResult false v, ArrayIterator target (S i))
      | None => (mkIteratorResult true VUndefined, ArrayIterator target i)
      end
  | StringIterator target i =>
      match String.get i target with
      | Some c => (mkIteratorResult false (VString (String c EmptyString)),
                   StringIterator target (S i))
      | None => (mkIteratorResult true VUndefined, StringIterator target i)
      end
  | EmptyIterator => (mkIteratorResult true VUndefined, EmptyIterator)
  end.

(** [v[Symbol.iterator]()] for the values that have the method. *)
Definition getIterator (v : Value) : Iterator :=
  match v with
  | VArray _ elems => ArrayIterator elems 0
  | VString s => StringIterator s 0
  | _ => EmptyIterator
  end.

(** How many elements an iterator still has to give. *)
Definition remaining (it : Iterator) : nat :=
  match it with
  | ArrayIterator target i => List.length target - i
  | StringIterator target i => String.length target - i
  | EmptyIterator => 0
  end.

(** The consuming loop of [[...x]] and [for ... of]: call [next] until it
    reports [done].  [None] when the fuel runs out first. *)
Fixpoint drain (fuel : nat) (it : Iterator) : option (list Value) :=
  match fuel with
  | O => None
  | S fuel' =>
      let (r, it') := next it in
      if done r then Some []
      else option_map (cons (value r)) (drain fuel' it')
  end.

(** *** structuredClone *)

(** The values the structured-clone algorithm accepts: anything that has no
    function in it. *)
Fixpoint cloneable (v : Value) : bool :=
  match v with
  | VFunction _ _ => false
  | VArray _ vs => forallb cloneable vs
  | VObject _ fs => forallb (fun kv => cloneable (snd kv)) fs
  | _ => true
  end.

(** Clone the members of a container one after the other, threading the
    allocation counter; give up at the first member that cannot be cloned. *)
Fixpoint cloneEach {A : Type} (clone : A -> loc -> option A * loc)
    (xs : list A) (n : loc) : option (list A) * loc :=
  match xs with
  | [] => (Some [], n)
  | x :: xs' =>
      match clone x n with
      | (Some x', n1) =>
          match cloneEach clone xs' n1 with
          | (Some r, n2) => (Some (x' :: r), n2)
          | (None, n2) => (None, n2)
          end
      | (None, n1) => (None, n1)
      end
  end.

(** The copy of [v] built from location [n] upwards, and the first location
    left unused; [None] where the algorithm raises [DataCloneError]. *)
Fixpoint cloneValue (v : Value) (n : loc) : option Value * loc :=
  match v with
  | VArray _ vs =>
      match cloneEach cloneValue vs (S n) with
      | (Some vs', n') => (Some (VArray n vs'), n')
      | (None, n') => (None, n')
      end
  | VObject _ fs =>
      match cloneEach
              (fun kv m =>
                 match cloneValue (snd kv) m with
                 | (Some x', m') => (Some (fst kv, x'), m')
                 | (None, m') => (None, m')
                 end) fs (S n) with
      | (Some fs', n') => (Some (VObject n fs'), n')
      | (None, n') => (None, n')
      end
  | VError _ m => (Some (VError n m), S n)
  | VFunction _ _ => (None, n)
  | prim => (Some prim, n)
  end.

(** The message of the [DataCloneError] exception; engines word it
    differently and nothing in the library reads it. *)
Definition dataCloneMessage : string := "DataCloneError".

(** [structuredClone(v)] *)
Definition structuredClone (v : Value) : Eff Value :=
  fun w =>
    match cloneValue v (next_loc w) with
    | (Some v', n) => (Returned v', mkWorld n (stackText w) (journal w))
    | (None, n) =>
        (Thrown (VError n dataCloneMessage),
         mkWorld (S n) (stackText w) (journal w))
    end.

End JS.

Import JS.
Local Open Scope eff_scope.

(** Callbacks handed to the library are arbitrary code: they may throw and
    they may change the world. *)
Definition Callback (A : Type) : Type := Value -> Eff A.

(** A callback that records each of its invocations in the journal before
    running; this is the call-counting device of the test suites. *)
Definition tracked {A} (tag : string) (fn : Callback A) : Callback A :=
  fun v => emit (Invoked tag v) ;;; fn v.

(** Number of recorded invocations of the callback tagged [tag]. *)
Definition invocations (tag : string) (w : World) : nat :=
  List.length
    (filter (fun ev => match ev with
                       | Invoked t _ => String.eqb t tag
                       | ConsoleWarn _ => false
                       end) (journal w)).

(** [a || b] on a possibly-undefined string. *)
Definition string_or (a : option string) (b : string) : string :=
  match a with
  | Some s => if truthy_string s then s else b
  | None => b
  end.

(* ===================================================================== *)
(** ** utils.ts *)
(* ===================================================================== *)

Module Utils.

(** Decimal text of an integer-valued number. *)
Definition digit (d : nat) : ascii := ascii_of_nat (48 + d).

Fixpoint digits (fuel n : nat) (acc : string) : string :=
  match fuel with
  | O => acc
  | S fuel' =>
      let acc' := String (digit (Nat.modulo n 10)) acc in
      if Nat.eqb (Nat.div n 10) 0 then acc' else digits fuel' (Nat.div n 10) acc'
  end.

Definition numberText (z : Z) : string :=
  let n := Z.abs_nat z in
  let body := digits (S n) n EmptyString in
  if (z <? 0)%Z then String "-" body else body.

(** Modelled from the spec: [toString] of [utils.ts], which is imported by
    both revisions of [result.ts] and is not among the sources.  The spec
    asks for the direct textual form of primitives, the message field of
    structured failure objects and a best-effort text for anything else,
    never failing.  The library code below takes the stringifier as a
    parameter; this instance only serves to run it on examples. *)
Definition toString (v : Value) : string :=
  match v with
  | VUndefined => "undefined"
  | VNull => "null"
  | VBool true => "true"
  | VBool false => "false"
  | VNumber n => numberText n
  | VString s => s
  | VError _ message => message
  | VArray _ _ => "[object Array]"
  | VObject _ _ => "[object Object]"
  | VFunction _ name => name
  end.

End Utils.

(* ===================================================================== *)
(** ** option.ts *)
(* ===================================================================== *)

Module OptionTs.

(** [SomeImpl] instances are told apart by their location; [SomeNone] has a
    single instance, created once when the module is loaded. *)
Inductive Option : Type :=
| SomeImpl (self : loc) (value : Value)
| SomeNone.

Definition isSome (o : Option) : bool :=
  match o with SomeImpl _ _ => true | SomeNone => false end.

Definition isNone (o : Option) : bool :=
  match o with SomeImpl _ _ => false | SomeNone => true end.

Definition isSomeAnd (o : Option) (fn : Callback bool) : Eff bool :=
  match o with
  | SomeImpl _ value => fn value
  | SomeNone => ret false
  end.

Definition expect (o : Option) (message : string) : Eff Value :=
  match o with
  | SomeImpl _ value => ret value
  | SomeNone => throwError message
  end.

Definition unwrap (o : Option) : Eff Value :=
  match o with
  | SomeImpl _ value => ret value
  | SomeNone => throwError "Tried to unwrap None"
  end.

Definition unwrapOr (o : Option) (defaultValue : Value) : Value :=
  match o with
  | SomeImpl _ value => value
  | SomeNone => defaultValue
  end.

(** [o[Symbol.iterator]()] *)
Definition iterator (o : Option) : Iterator :=
  match o with
  | SomeImpl _ value =>
      (* const obj = Object(this.#value); Symbol.iterator in obj ? ... *)
      if hasSymbolIterator value then getIterator value else EmptyIterator
  | SomeNone => EmptyIterator
  end.

(** [export const Some = (value) => new SomeImpl(value)] *)
Definition Some (value : Value) : Eff Option :=
  self <- alloc ;; ret (SomeImpl self value).

(** [export const None = new SomeNone] *)
Definition None : Option := SomeNone.

End OptionTs.

(* ===================================================================== *)
(** ** result.ts, earlier revision *)
(* ===================================================================== *)

Module Earlier.

Inductive Result : Type :=
| OkImpl (self : loc) (value : Value)
| ErrImpl (self : loc) (stack : string) (value : Value).

(** [new OkImpl(value)] *)
Definition Ok (value : Value) : Eff Result :=
  self <- alloc ;; ret (OkImpl self value).

(** What the engine throws for [undefined.split]. *)
Definition undefinedSplitMessage : string :=
  "Cannot read properties of undefined (reading 'split')".

(** [new ErrImpl(value)]: the stack text loses its first two lines, and a
    third one when it starts with the constructor's name. *)
Definition Err (value : Value) : Eff Result :=
  self <- alloc ;;
  raw <- captureStack ;;
  match raw with
  | Datatypes.None => throwError undefinedSplitMessage
  | Datatypes.Some text =>
      let stackLines := skipn 2 (split_lines text) in
      let stackLines :=
        match stackLines with
        | first :: rest =>
            if startsWith "ErrImpl" first then rest else stackLines
        | [] => stackLines
        end in
      ret (ErrImpl self (join_lines stackLines) value)
  end.

Section WithUtils.
Variable toString : Value -> string.

Definition isOkAnd (r : Result) (fn : Callback bool) : Eff bool :=
  match r with
  | OkImpl _ value => fn value
  | ErrImpl _ _ _ => ret false
  end.

Definition isOk (r : Result) : bool :=
  match r with OkImpl _ _ => true | ErrImpl _ _ _ => false end.

Definition isErr (r : Result) : bool :=
  match r with OkImpl _ _ => false | ErrImpl _ _ _ => true end.

Definition isErrAnd (r : Result) (fn : Callback bool) : Eff bool :=
  match r with
  | OkImpl _ _ => ret false
  | ErrImpl _ _ value => fn value
  end.

Definition expect (r : Result) (message : string) : Eff Value :=
  match r with
  | OkImpl _ value => ret value
  | ErrImpl _ stack value =>
      throwError (message ++ ": " ++ toString value ++ LF ++ stack)
  end.

Definition unwrap (r : Result) : Eff Value :=
  match r with
  | OkImpl _ value => ret value
  | ErrImpl _ stack value =>
      throwError ("Tried to unwrap Error: " ++ toString value ++ LF ++ stack)
  end.

Definition unwrapOr (r : Result) (defaultValue : Value) : Value :=
  match r with
  | OkImpl _ value => value
  | ErrImpl _ _ _ => defaultValue
  end.

Definition ok (r : Result) : Eff OptionTs.Option :=
  match r with
  | OkImpl _ value => OptionTs.Some value
  | ErrImpl _ _ _ => ret OptionTs.None
  end.

Definition err (r : Result) : Eff OptionTs.Option :=
  match r with
  | OkImpl _ _ => ret OptionTs.None
  | ErrImpl _ _ value => OptionTs.Some value
  end.

Definition iterator (r : Result) : Iterator :=
  match r with
  | OkImpl _ value =>
      if hasSymbolIterator value then getIterator value else EmptyIterator
  | ErrImpl _ _ _ => EmptyIterator
  end.

End WithUtils.

Definition ResultWrapper (fn : list Value -> Eff Value)
  : list Value -> Eff Result :=
  fun args =>
    try_catch (v <- fn args ;; Ok v) (fun err => Err err).

End Earlier.

(* ===================================================================== *)
(** ** src/result.ts, later revision *)
(* ===================================================================== *)

Module Later.

Inductive Result : Type :=
| OkImpl (self : loc) (value : Value)
| ErrImpl (self : loc) (stack : string) (value : Value).

(** [export const Ok = (value) => new OkImpl(value)] *)
Definition Ok (value : Value) : Eff Result :=
  self <- alloc ;; ret (OkImpl self value).

(** The [while] loop of the [ErrImpl] constructor, run over the lines from
    index [firstRelevantFrame] on: it stops at the end of the array, at an
    empty line, or at the first line naming neither [ErrImpl] nor [ Err ]. *)
Fixpoint scanFrames (fromHere : list string) (firstRelevantFrame : nat) : nat :=
  match fromHere with
  | [] => firstRelevantFrame
  | line :: rest =>
      if truthy_string line
         && (includes "ErrImpl" line || includes " Err " line)
      then scanFrames rest (S firstRelevantFrame)
      else firstRelevantFrame
  end.

(** The origin trace kept by an [Err] built while the engine reports the
    stack text [raw]. *)
Definition originTrace (raw : option string) : string :=
  let stackLines := split_lines (string_or raw "") in
  let firstRelevantFrame := scanFrames (skipn 1 stackLines) 1 in
  join_lines (skipn firstRelevantFrame stackLines).

(** [export const Err = (value) => new ErrImpl(value)] *)
Definition Err (value : Value) : Eff Result :=
  self <- alloc ;;
  raw <- captureStack ;;
  ret (ErrImpl self (originTrace raw) value).

(** [error.message] of an [Error] instance. *)
Definition messageOf (error : Value) : Value :=
  match error with
  | VError _ message => VString message
  | _ => VUndefined
  end.

Section WithUtils.
Variable toString : Value -> string.

Definition isOk (r : Result) : bool :=
  match r with OkImpl _ _ => true | ErrImpl _ _ _ => false end.

Definition isOkAnd (r : Result) (fn : Callback bool) : Eff bool :=
  match r with
  | OkImpl _ value => fn value
  | ErrImpl _ _ _ => ret false
  end.

Definition isErr (r : Result) : bool :=
  match r with OkImpl _ _ => false | ErrImpl _ _ _ => true end.

Definition isErrAnd (r : Result) (fn : Callback bool) : Eff bool :=
  match r with
  | OkImpl _ _ => ret false
  | ErrImpl _ _ value => fn value
  end.

Definition ok (r : Result) : Value :=
  match r with OkImpl _ value => value | ErrImpl _ _ _ => VUndefined end.

Definition err (r : Result) : Value :=
  match r with OkImpl _ _ => VUndefined | ErrImpl _ _ value => value end.

Definition map (r : Result) (fn : Callback Value) : Eff Result :=
  match r with
  | OkImpl _ value => v <- fn value ;; Ok v
  | ErrImpl _ _ _ => ret r
  end.

Definition mapOr (r : Result) (defaultValue : Value) (fn : Callback Value)
  : Eff Value :=
  match r with
  | OkImpl _ value => fn value
  | ErrImpl _ _ _ => ret defaultValue
  end.

Definition mapOrElse (r : Result) (defaultFn fn : Callback Value) : Eff Value :=
  match r with
  | OkImpl _ value => fn value
  | ErrImpl _ _ value => defaultFn value
  end.

Definition mapErr (r : Result) (fn : Callback Value) : Eff Result :=
  match r with
  | OkImpl _ _ => ret r
  | ErrImpl _ _ value => e <- fn value ;; Err e
  end.

Definition inspect (r : Result) (fn : Callback Value) : Eff Result :=
  match r with
  | OkImpl _ value => fn value ;;; ret r
  | ErrImpl _ _ _ => ret r
  end.

Definition inspectErr (r : Result) (fn : Callback Value) : Eff Result :=
  match r with
  | OkImpl _ _ => ret r
  | ErrImpl _ _ value => fn value ;;; ret r
  end.

Definition expect (r : Result) (message : string) : Eff Value :=
  match r with
  | OkImpl _ value => ret value
  | ErrImpl _ stack value =>
      throwError (message ++ ": " ++ toString value ++ LF ++ stack)
  end.

Definition unwrap (r : Result) : Eff Value :=
  match r with
  | OkImpl _ value => ret value
  | ErrImpl _ stack value =>
      throwError ("Tried to unwrap Error: " ++ toString value ++ LF ++ stack)
  end.

Definition unwrapOr (r : Result) (defaultValue : Value) : Value :=
  match r with
  | OkImpl _ value => value
  | ErrImpl _ _ _ => defaultValue
  end.

Definition unwrapOrElse (r : Result) (fn : Callback Value) : Eff Value :=
  match r with
  | OkImpl _ value => ret value
  | ErrImpl _ _ value => fn value
  end.

Definition and (r res : Result) : Result :=
  match r with
  | OkImpl _ _ => res
  | ErrImpl _ _ _ => r
  end.

Definition andThen (r : Result) (fn : Callback Result) : Eff Result :=
  match r with
  | OkImpl _ value => fn value
  | ErrImpl _ _ _ => ret r
  end.

Definition or (r res : Result) : Result :=
  match r with
  | OkImpl _ _ => r
  | ErrImpl _ _ _ => res
  end.

Definition orElse (r : Result) (fn : Callback Result) : Eff Result :=
  match r with
  | OkImpl _ _ => ret r
  | ErrImpl _ _ value => fn value
  end.

Definition cloned (r : Result) : Eff Result :=
  match r with
  | OkImpl _ value =>
      try_catch
        (clonedValue <- structuredClone value ;; Ok clonedValue)
        (fun e =>
           console_warn
             [VString "Failed to structuredClone Ok value:"; value; e] ;;;
           ret r)
  | ErrImpl _ _ _ => ret r
  end.

Definition expectErr (r : Result) (message : string) : Eff Value :=
  match r with
  | OkImpl _ value => throwError (message ++ ": " ++ toString value)
  | ErrImpl _ _ value => ret value
  end.

Definition unwrapErr (r : Result) : Eff Value :=
  match r with
  | OkImpl _ value =>
      throwError ("Tried to unwrap Ok value: " ++ toString value)
  | ErrImpl _ _ value => ret value
  end.

(** [r[Symbol.iterator]()] *)
Definition iterator (r : Result) : Iterator :=
  match r with
  | OkImpl _ value =>
      if String.eqb (typeof value) "object"
         && negb (match value with VNull => true | _ => false end)
         && hasSymbolIterator value
      then getIterator value
      else EmptyIterator
  | ErrImpl _ _ _ => EmptyIterator
  end.

End WithUtils.

Definition wrapInResult (fn : list Value -> Eff Value)
    (errorTransform : option (Callback Value)) : list Value -> Eff Result :=
  fun args =>
    try_catch
      (v <- fn args ;; Ok v)
      (fun error =>
         transformedError <-
           match errorTransform with
           | Some transform => transform error
           | None =>
               ret (if instanceofError error then messageOf error else error)
           end ;;
         Err transformedError).

End Later.

(** [[...x]]: the elements an iterator gives until it is done. *)
Definition spread (it : Iterator) : option (list Value) :=
  drain (S (remaining it)) it.

(* ===================================================================== *)
(** ** main.ts, the demonstration functions over the earlier revision *)
(* ===================================================================== *)

Module Main.

Section WithArithmetic.

(** The number [a / b].  It has a fraction in general, which the integer
    leaves of [Value] cannot hold, so the quotient is left to the caller of
    the model; nothing below looks inside it. *)
Variable quotient : Z -> Z -> Value.

(** [MathError.DivideByZero] *)
Definition DivideByZero : Value := VString "Cannot divide by zero".

Definition divideResult (a b : Z) : Eff Earlier.Result :=
  if Z.eqb a 0 || Z.eqb b 0 then Earlier.Err DivideByZero
  else Earlier.Ok (quotient a b).

Definition divideOption (a b : Z) : Eff OptionTs.Option :=
  if Z.eqb a 0 || Z.eqb b 0 then ret OptionTs.None
  else OptionTs.Some (quotient a b).

Definition divide (a b : Z) : Eff Value :=
  if Z.eqb a 0 || Z.eqb b 0 then throwError "Cannot divide by zero"
  else ret (quotient a b).

(** [ResultWrapper(divide)(a, b)]: the wrapper hands the argument array
    over to [divide], whose signature takes two numbers. *)
Definition wrappedDivide (a b : Z) : Eff Earlier.Result :=
  Earlier.ResultWrapper
    (fun args =>
       match args with
       | [VNumber x; VNumber y] => divide x y
       | _ => ret VUndefined
       end)
    [VNumber a; VNumber b].

End WithArithmetic.

End Main.

(* ===================================================================== *)
(** ** Vocabulary of the statements *)
(* ===================================================================== *)

(** The world after one allocation. *)
Definition bumped (w : World) : World :=
  mkWorld (S (next_loc w)) (stackText w) (journal w).

(** Whether a run ended with a value rather than a throw. *)
Definition returns {A : Type} (run : Outcome A * World) : bool :=
  match fst run with Returned _ => true | Thrown _ => false end.

(** The message of the [Error] a run ended with, if it ended that way. *)
Definition thrownMessage {A : Type} (run : Outcome A * World) : option string :=
  match fst run with
  | Thrown (VError _ message) => Some message
  | _ => None
  end.

(** What one cloning step guarantees, for a member of type [A]. *)
Definition cloneStepOk {A : Type} (clone : A -> loc -> option A * loc)
    (good : A -> bool) (same : A -> A -> bool) (where_ : A -> list loc)
    (x : A) : Prop :=
  forall n,
    match clone x n with
    | (Some x', n') =>
        good x = true /\ same x x' = true /\ n <= n' /\
        Forall (fun l => n <= l < n') (where_ x')
    | (None, _) => good x = false
    end.

(** Every object of [v] was allocated before [w]. *)
Definition allocated (w : World) (v : Value) : bool :=
  forallb (fun l => Nat.ltb l (next_loc w)) (locs v).

(** The container [r] and what it wraps were allocated before [w]. *)
Definition resultAllocated (w : World) (r : Later.Result) : bool :=
  match r with
  | Later.OkImpl self value => Nat.ltb self (next_loc w) && allocated w value
  | Later.ErrImpl self _ value => Nat.ltb self (next_loc w) && allocated w value
  end.

(** Reference-distinct: no object of one value is an object of the other. *)
Definition shareNoReference (a b : Value) : Prop :=
  forall l, In l (locs a) -> ~ In l (locs b).

(** Value equality of two containers: same variant, structurally equal
    contents; the containers' own identities are not compared. *)
Definition valueEqual (a b : Later.Result) : bool :=
  match a, b with
  | Later.OkImpl _ x, Later.OkImpl _ y => structEq x y
  | Later.ErrImpl _ _ x, Later.ErrImpl _ _ y => structEq x y
  | _, _ => false
  end.

(** The raw-value-or-[undefined] reading of an [Option]. *)
Definition rawOf (o : OptionTs.Option) : Value :=
  match o with
  | OptionTs.SomeImpl _ value => value
  | OptionTs.SomeNone => VUndefined
  end.

(** The same container in the two revisions. *)
Definition asLater (r : Earlier.Result) : Later.Result :=
  match r with
  | Earlier.OkImpl self value => Later.OkImpl self value
  | Earlier.ErrImpl self stack value => Later.ErrImpl self stack value
  end.

(** The message field a caught failure carries, if any: the [message] of an
    [Error] instance, or the [message] property of a plain object. *)
Definition messageField (error : Value) : option Value :=
  match error with
  | VError _ message => Some (VString message)
  | VObject _ fields =>
      option_map snd (find (fun kv => String.eqb (fst kv) "message") fields)
  | _ => None
  end.

(** The adapter as the specification words it: without [errorTransform], a
    caught failure that carries a message field becomes an [Err] of that
    message, any other caught failure an [Err] of itself.  To be compared
    with [Later.wrapInResult]. *)
Definition wrapInResult_as_specified (fn : list Value -> Eff Value)
    (errorTransform : option (Callback Value)) : list Value -> Eff Later.Result :=
  fun args =>
    try_catch
      (v <- fn args ;; Later.Ok v)
      (fun error =>
         transformedError <-
           match errorTransform with
           | Some transform => transform error
           | None =>
               ret (match messageField error with
                    | Some message => message
                    | None => error
                    end)
           end ;;
         Later.Err transformedError).

(** *** Sample inputs *)

Definition sampleStack : string :=
  ("Error" ++ LF ++
   "    at new ErrImpl (src/result.ts:555:25)" ++ LF ++
   "    at Err (src/result.ts:696:52)" ++ LF ++
   "    at divide (test/result.test.ts:10:22)" ++ LF ++
   "    at main (test/result.test.ts:15:20)")%string.

Definition sampleWorld : World := mkWorld 10 (Some sampleStack) [].

(** [() => { throw "boom" }] *)
Definition throwsBoom : list Value -> Eff Value :=
  fun _ => throw (VString "boom").

(** [() => { throw { message: "x" } }] *)
Definition throwsMessageObject : list Value -> Eff Value :=
  fun _ => self <- alloc ;; throw (VObject self [("message", VString "x")]).

(** [() => { throw new Error("cannot divide by zero") }] *)
Definition throwsError : list Value -> Eff Value :=
  fun _ => throwError "cannot divide by zero".

(** [() => 5] *)
Definition returnsFive : list Value -> Eff Value :=
  fun _ => ret (VNumber 5).

(** [(error) => ({ code: 500 })] *)
Definition toCode : Callback Value :=
  fun _ => self <- alloc ;; ret (VObject self [("code", VNumber 500)]).

(** [(error) => { throw new Error("transform failed") }] *)
Definition failingTransform : Callback Value :=
  fun _ => throwError "transform failed".

(** [Ok({ a: 1 })], built earlier in the run. *)
Definition sampleOk : Later.Result :=
  Later.OkImpl 3 (VObject 4 [("a", VNumber 1)]).

(** [Ok({ run: callback })], built earlier in the run. *)
Definition sampleOkWithCallback : Later.Result :=
  Later.OkImpl 3 (VObject 4 [("run", VFunction 5 "callback")]).

(** *** Vocabulary of the further properties *)


(** A callback without effects. *)
Definition pure {A : Type} (f : Value -> A) : Callback A :=
  fun v => ret (f v).

(** A callback that only counts its calls under [tag]. *)
Definition counting (tag : string) : Callback Value :=
  tracked tag (pure (fun _ => VUndefined)).

(** The test of the [ErrImpl] constructor's loop: a non-empty stack line
    that names [ErrImpl] or [ Err ]. *)
Definition isConstructorFrame (line : string) : bool :=
  truthy_string line && (includes "ErrImpl" line || includes " Err " line).

(** What an [Earlier] container wraps. *)
Definition payload (r : Earlier.Result) : Value :=
  match r with
  | Earlier.OkImpl _ value => value
  | Earlier.ErrImpl _ _ value => value
  end.

(** An exact quotient, for running [Main] on divisible samples. *)
Definition exactQuotient (a b : Z) : Value := VNumber (a / b).

(* ===================================================================== *)
(** ** Facts about the platform model *)
(* ===================================================================== *)

Section PlatformFacts.

Lemma throwError_run (A : Type) (message : string) (w : World) :
  @throwError A message w = (Thrown (VError (next_loc w) message), bumped w).
Proof. reflexivity. Qed.

Lemma all2_refl (A : Type) (same : A -> A -> bool) (xs : list A) :
  Forall (fun x => same x x = true) xs -> all2 same xs xs = true.
Proof.
  induction 1 as [|x xs Hx _ IH]; simpl; [reflexivity|].
  now rewrite Hx, IH.
Qed.

Lemma structEq_refl (v : Value) : structEq v v = true.
Proof.
  induction v as [ | | b | n | s | l vs IH | l fs IH | l m | l n ]
    using Value_deep_ind; simpl.
  - reflexivity.
  - reflexivity.
  - now destruct b.
  - apply Z.eqb_refl.
  - apply String.eqb_refl.
  - now apply all2_refl.
  - apply all2_refl.
    eapply Forall_impl; [|exact IH].
    intros [k x] Hx; simpl in *. now rewrite String.eqb_refl, Hx.
  - apply String.eqb_refl.
  - apply String.eqb_refl.
Qed.

Lemma Forall_range_widen (lo lo' hi hi' : nat) (ls : list loc) :
  lo' <= lo -> hi <= hi' ->
  Forall (fun l => lo <= l < hi) ls -> Forall (fun l => lo' <= l < hi') ls.
Proof.
  intros Hlo Hhi H. eapply Forall_impl; [|exact H].
  simpl. intros l Hl. lia.
Qed.

Lemma cloneEach_spec (A : Type) (clone : A -> loc -> option A * loc)
    (good : A -> bool) (same : A -> A -> bool) (where_ : A -> list loc)
    (xs : list A) :
  Forall (cloneStepOk clone good same where_) xs ->
  forall n,
    match cloneEach clone xs n with
    | (Some xs', n') =>
        forallb good xs = true /\ all2 same xs xs' = true /\ n <= n' /\
        Forall (fun l => n <= l < n') (flat_map where_ xs')
    | (None, _) => forallb good xs = false
    end.
Proof.
  induction 1 as [|x xs Hx _ IH]; intros n; simpl.
  - repeat split; auto.
  - specialize (Hx n). destruct (clone x n) as [[x'|] n1].
    + destruct Hx as (Hg & Hs & Hle & Hin).
      specialize (IH n1). destruct (cloneEach clone xs n1) as [[r|] n2].
      * destruct IH as (Hg' & Hs' & Hle' & Hin'). simpl.
        rewrite Hg, Hg', Hs, Hs'. repeat split; auto; [lia|].
        apply Forall_app. split.
        -- eapply Forall_range_widen; [| |exact Hin]; lia.
        -- eapply Forall_range_widen; [| |exact Hin']; lia.
      * rewrite IH. apply andb_false_r.
    + now rewrite Hx.
Qed.

Lemma cloneValue_spec (v : Value) :
  cloneStepOk cloneValue cloneable structEq locs v.
Proof.
  induction v as [ | | b | n | s | l vs IH | l fs IH | l m | l n ]
    using Value_deep_ind; intros k; simpl.
  - repeat split; auto.
  - repeat split; auto.
  - repeat split; auto. now destruct b.
  - repeat split; auto. apply Z.eqb_refl.
  - repeat split; auto. apply String.eqb_refl.
  - pose proof (cloneEach_spec _ _ _ _ _ _ IH (S k)) as H.
    destruct (cloneEach cloneValue vs (S k)) as [[vs'|] k']; [|exact H].
    destruct H as (Hg & Hs & Hle & Hin). simpl.
    repeat split; auto; [lia|].
    constructor; [lia|].
    eapply Forall_range_widen; [| |exact Hin]; lia.
  - set (cloneField := fun (kv : string * Value) (m : loc) =>
           match cloneValue (snd kv) m with
           | (Some x', m') => (Some (fst kv, x'), m')
           | (None, m') => (None, m')
           end).
    assert (Hstep : Forall
              (cloneStepOk cloneField
                 (fun kv => cloneable (snd kv))
                 (fun kx ky => String.eqb (fst kx) (fst ky)
                               && structEq (snd kx) (snd ky))
                 (fun kv => locs (snd kv))) fs).
    { eapply Forall_impl; [|exact IH].
      intros [key x] Hx m. unfold cloneField. simpl in *.
      specialize (Hx m). destruct (cloneValue x m) as [[x'|] m']; [|exact Hx].
      destruct Hx as (Hg & Hs & Hle & Hin). simpl.
      rewrite String.eqb_refl, Hs. repeat split; auto. }
    pose proof (cloneEach_spec _ _ _ _ _ _ Hstep (S k)) as H.
    destruct (cloneEach cloneField fs (S k)) as [[fs'|] k']; [|exact H].
    destruct H as (Hg & Hs & Hle & Hin). simpl.
    repeat split; auto; [lia|].
    constructor; [lia|].
    eapply Forall_range_widen; [| |exact Hin]; lia.
  - split; [reflexivity|]. split; [apply String.eqb_refl|].
    split; [lia|]. constructor; [lia|constructor].
  - reflexivity.
Qed.

(** A cloneable value is cloned: the copy is structurally equal and lives
    entirely at locations that were free before. *)
Lemma structuredClone_cloneable (v : Value) (w : World) :
  cloneable v = true ->
  exists v' n',
    structuredClone v w = (Returned v', mkWorld n' (stackText w) (journal w))
    /\ structEq v v' = true
    /\ next_loc w <= n'
    /\ Forall (fun l => next_loc w <= l < n') (locs v').
Proof.
  intros Hc. unfold structuredClone.
  pose proof (cloneValue_spec v (next_loc w)) as H.
  destruct (cloneValue v (next_loc w)) as [[v'|] n'].
  - destruct H as (_ & Hs & Hle & Hin). now exists v', n'.
  - congruence.
Qed.

(** A value holding a function is refused with an exception. *)
Lemma structuredClone_not_cloneable (v : Value) (w : World) :
  cloneable v = false ->
  exists n',
    structuredClone v w =
      (Thrown (VError n' dataCloneMessage),
       mkWorld (S n') (stackText w) (journal w)).
Proof.
  intros Hc. unfold structuredClone.
  pose proof (cloneValue_spec v (next_loc w)) as H.
  destruct (cloneValue v (next_loc w)) as [[v'|] n'].
  - destruct H as (Hg & _). congruence.
  - now exists n'.
Qed.

End PlatformFacts.

(* ===================================================================== *)
(** ** Iteration *)
(* ===================================================================== *)

Section IterationFacts.

Lemma drain_step (fuel : nat) (it : Iterator) :
  drain (S fuel) it =
    let (r, it') := next it in
    if done r then Some [] else option_map (cons (value r)) (drain fuel it').
Proof. reflexivity. Qed.

Lemma drain_array (target : list Value) :
  forall k i, k = List.length target - i ->
    drain (S k) (ArrayIterator target i) = Some (skipn i target).
Proof.
  induction k as [|k IH]; intros i Hk; rewrite drain_step; cbn [next].
  - assert (Hlen : List.length target <= i) by lia.
    rewrite (proj2 (nth_error_None target i) Hlen). simpl.
    now rewrite skipn_all2.
  - destruct (nth_error target i) as [v|] eqn:Hv.
    + cbn [done value].
      rewrite (IH (S i)) by lia. simpl.
      f_equal. clear - Hv. revert i Hv.
      induction target as [|x xs IHt]; intros [|i] Hv; simpl in *;
        try discriminate.
      * now inversion Hv.
      * now apply IHt.
    + apply nth_error_None in Hv. lia.
Qed.

Lemma string_get_none (s : string) :
  forall i, String.length s <= i -> String.get i s = None.
Proof.
  induction s as [|c s IH]; intros i Hi; simpl in *.
  - reflexivity.
  - destruct i as [|i]; [lia|]. apply IH. lia.
Qed.

Lemma string_get_some (s : string) :
  forall i, i < String.length s -> exists c, String.get i s = Some c.
Proof.
  induction s as [|c s IH]; intros i Hi; simpl in *.
  - lia.
  - destruct i as [|i]; [now exists c|]. apply IH. lia.
Qed.

Lemma drain_string_total (target : string) :
  forall k i, k = String.length target - i ->
    exists xs, drain (S k) (StringIterator target i) = Some xs.
Proof.
  induction k as [|k IH]; intros i Hk; rewrite drain_step; cbn [next].
  - rewrite string_get_none by lia. simpl. now exists [].
  - destruct (string_get_some target i) as [c Hc]; [lia|].
    rewrite Hc. cbn [done value].
    destruct (IH (S i)) as [xs Hxs]; [lia|].
    rewrite Hxs. simpl. now eexists.
Qed.

(** Spreading never runs out of fuel: every sequence is finite. *)
Lemma spread_total (it : Iterator) : exists xs, spread it = Some xs.
Proof.
  unfold spread. destruct it as [target i|target i|].
  - exists (skipn i target). now apply drain_array.
  - now apply drain_string_total.
  - now exists [].
Qed.


(** An [Ok] holding a value without the iteration method yields nothing. *)
Lemma later_iterates_nothing_else (self : loc) (v : Value) :
  hasSymbolIterator v = false ->
  spread (Later.iterator (Later.OkImpl self v)) = Some [].
Proof.
  intros H. unfold Later.iterator. rewrite H, andb_false_r. reflexivity.
Qed.

(** An [Err] yields nothing. *)
Lemma later_err_iterates_nothing (self : loc) (stack : string) (e : Value) :
  spread (Later.iterator (Later.ErrImpl self stack e)) = Some [].
Proof. reflexivity. Qed.

(** C3, at the input where the code departs from it: a string is iterable
    and spreads into its characters, the earlier revision of [Ok] yields
    them, but the later revision's [Ok("abc")] yields nothing. *)
Theorem later_iteration_misses_strings (self : loc) :
  hasSymbolIterator (VString "abc") = true /\
  spread (getIterator (VString "abc"))
    = Some [VString "a"; VString "b"; VString "c"] /\
  spread (Earlier.iterator (Earlier.OkImpl self (VString "abc")))
    = Some [VString "a"; VString "b"; VString "c"] /\
  spread (Later.iterator (Later.OkImpl self (VString "abc"))) = Some [].
Proof. repeat split. Qed.

End IterationFacts.

(* ===================================================================== *)
(** ** Option *)
(* ===================================================================== *)

Section OptionFacts.

Lemma Some_run (v : Value) (w : World) :
  OptionTs.Some v w = (Returned (OptionTs.SomeImpl (next_loc w) v), bumped w).
Proof. reflexivity. Qed.

(** C8.  On a [Some] holding [v], [unwrap()], [expect(m)] and [unwrapOr(d)]
    all return [v] and leave the world alone.  On [None], [unwrap()] throws
    an [Error] whose message is "Tried to unwrap None", [expect(m)] throws
    an [Error] whose message is exactly [m], and [unwrapOr(d)] returns [d]. *)
Theorem option_unwrap_family (o : OptionTs.Option) (m : string) (d : Value)
    (w : World) :
  match o with
  | OptionTs.SomeImpl _ v =>
      OptionTs.unwrap o w = (Returned v, w) /\
      OptionTs.expect o m w = (Returned v, w) /\
      OptionTs.unwrapOr o d = v
  | OptionTs.SomeNone =>
      OptionTs.unwrap o w
        = (Thrown (VError (next_loc w) "Tried to unwrap None"), bumped w) /\
      OptionTs.expect o m w = (Thrown (VError (next_loc w) m), bumped w) /\
      OptionTs.unwrapOr o d = d
  end.
Proof. destruct o as [self v|]; repeat split. Qed.

End OptionFacts.

(* ===================================================================== *)
(** ** Result, later revision *)
(* ===================================================================== *)

Section ResultFacts.

Variable toString : Value -> string.

Lemma Ok_run (v : Value) (w : World) :
  Later.Ok v w = (Returned (Later.OkImpl (next_loc w) v), bumped w).
Proof. reflexivity. Qed.

(** The trace an [Err] keeps is fixed when it is built, from the stack text
    the engine reports at that moment. *)
Lemma Err_run (e : Value) (w : World) :
  Later.Err e w =
    (Returned (Later.ErrImpl (next_loc w) (Later.originTrace (stackText w)) e),
     bumped (bumped w)).
Proof. reflexivity. Qed.

(** C1.  On an [Ok] holding [v], [expect(m)] and [unwrap()] return [v],
    while [expectErr(m)] and [unwrapErr()] throw an [Error] whose message is
    [m ++ ": " ++ toString v], respectively
    ["Tried to unwrap Ok value: " ++ toString v], with no trace.  On an
    [Err] holding [e] with origin trace [trace], [expectErr(m)] and
    [unwrapErr()] return [e], while [expect(m)] and [unwrap()] throw an
    [Error] whose message is [m ++ ": " ++ toString e ++ "\n" ++ trace],
    respectively ["Tried to unwrap Error: " ++ toString e ++ "\n" ++ trace].
    So the first pair returns exactly on [Ok] and the second exactly on
    [Err].  For an [Err] built by the factory, the trace in the message is
    the origin trace captured when it was built. *)
Theorem unwrap_family_contract (r : Later.Result) (m : string) (w : World) :
  match r with
  | Later.OkImpl _ v =>
      Later.expect toString r m w = (Returned v, w) /\
      Later.unwrap toString r w = (Returned v, w) /\
      Later.expectErr toString r m w
        = (Thrown (VError (next_loc w) (m ++ ": " ++ toString v)), bumped w) /\
      Later.unwrapErr toString r w
        = (Thrown (VError (next_loc w)
                     ("Tried to unwrap Ok value: " ++ toString v)), bumped w)
  | Later.ErrImpl _ trace e =>
      Later.expectErr toString r m w = (Returned e, w) /\
      Later.unwrapErr toString r w = (Returned e, w) /\
      Later.expect toString r m w
        = (Thrown (VError (next_loc w)
                     (m ++ ": " ++ toString e ++ LF ++ trace)), bumped w) /\
      Later.unwrap toString r w
        = (Thrown (VError (next_loc w)
                     ("Tried to unwrap Error: " ++ toString e ++ LF ++ trace)),
           bumped w)
  end
  /\ returns (Later.expect toString r m w) = Later.isOk r
  /\ returns (Later.unwrap toString r w) = Later.isOk r
  /\ returns (Later.expectErr toString r m w) = Later.isErr r
  /\ returns (Later.unwrapErr toString r w) = Later.isErr r
  /\ (forall e w0,
        thrownMessage
          ((r' <- Later.Err e ;; Later.expect toString r' m) w0)
        = Some (m ++ ": " ++ toString e ++ LF
                  ++ Later.originTrace (stackText w0))%string)
  /\ (forall e w0,
        thrownMessage ((r' <- Later.Err e ;; Later.unwrap toString r') w0)
        = Some ("Tried to unwrap Error: " ++ toString e ++ LF
                  ++ Later.originTrace (stackText w0))%string).
Proof. destruct r as [self v|self trace e]; repeat split. Qed.

(** C7.  [isOk]/[isErr] tell the variants apart; on an [Ok] holding [v],
    [isOkAnd(p)] is the call [p(v)] and [isErrAnd(p)] is [false] without
    running [p]; on an [Err] holding [e], [isErrAnd(p)] is the call [p(e)]
    and [isOkAnd(p)] is [false] without running [p].  "Without running":
    whatever [p] would do, the answer is [false], the world is untouched,
    and a call-counting [p] counts no call. *)
Theorem variant_predicates (r : Later.Result) (p : Callback bool) (w : World) :
  match r with
  | Later.OkImpl _ v =>
      Later.isOk r = true /\ Later.isErr r = false /\
      Later.isOkAnd r p w = p v w /\
      Later.isErrAnd r p w = (Returned false, w) /\
      forall tag,
        invocations tag (snd (Later.isErrAnd r (tracked tag p) w))
          = invocations tag w
  | Later.ErrImpl _ _ e =>
      Later.isErr r = true /\ Later.isOk r = false /\
      Later.isErrAnd r p w = p e w /\
      Later.isOkAnd r p w = (Returned false, w) /\
      forall tag,
        invocations tag (snd (Later.isOkAnd r (tracked tag p) w))
          = invocations tag w
  end.
Proof. destruct r as [self v|self trace e]; repeat split. Qed.

(** C4.  On an [Ok] holding [v], [and(o)] is [o] itself, whichever variant
    [o] is, and [andThen(fn)] is the call [fn(v)].  On an [Err], [and(o)] is
    the [Err] itself, and [andThen(fn)] returns the [Err] itself without
    running [fn]: the world is untouched and a call-counting [fn] counts no
    call. *)
Theorem and_chain_short_circuit (r o : Later.Result)
    (fn : Callback Later.Result) (w : World) :
  match r with
  | Later.OkImpl _ v =>
      Later.and r o = o /\ Later.andThen r fn w = fn v w
  | Later.ErrImpl _ _ _ =>
      Later.and r o = r /\
      Later.andThen r fn w = (Returned r, w) /\
      forall tag,
        invocations tag (snd (Later.andThen r (tracked tag fn) w))
          = invocations tag w
  end.
Proof. destruct r as [self v|self trace e]; repeat split. Qed.

(** C5.  Mapping the identity over an [Ok] holding [v] gives a new [Ok]
    holding the very same [v], hence value-equal to the original.  [map(f)]
    on an [Err] returns that [Err] itself, error untouched, without running
    [f]; [mapErr(f)] on an [Ok] returns that [Ok] itself without running
    [f]. *)
Theorem map_laws (r : Later.Result) (f : Callback Value) (w : World) :
  match r with
  | Later.OkImpl _ v =>
      Later.map r (fun x => ret x) w
        = (Returned (Later.OkImpl (next_loc w) v), bumped w) /\
      valueEqual (Later.OkImpl (next_loc w) v) r = true /\
      Later.mapErr r f w = (Returned r, w) /\
      forall tag,
        invocations tag (snd (Later.mapErr r (tracked tag f) w))
          = invocations tag w
  | Later.ErrImpl _ _ e =>
      Later.map r f w = (Returned r, w) /\
      Later.err r = e /\
      forall tag,
        invocations tag (snd (Later.map r (tracked tag f) w))
          = invocations tag w
  end.
Proof.
  destruct r as [self v|self trace e]; repeat split.
  simpl. apply structEq_refl.
Qed.

(** C9.  In the earlier revision [ok()] on an [Ok] holding [v] is the call
    [Some(v)] (a fresh [Some] container holding [v]) and on an [Err] it is
    the shared [None]; [err()] is the mirror image.  In the later revision
    [ok()] on an [Ok] is the raw [v] and on an [Err] it is [undefined];
    [err()] on an [Err] holding [e] is the raw [e] and on an [Ok] it is
    [undefined].  The later answer is the raw reading of the earlier one. *)
Theorem ok_err_two_revisions (r : Earlier.Result) (w : World) :
  match r with
  | Earlier.OkImpl _ v =>
      Earlier.ok r w = OptionTs.Some v w /\
      Earlier.ok r w
        = (Returned (OptionTs.SomeImpl (next_loc w) v), bumped w) /\
      Earlier.err r w = (Returned OptionTs.None, w) /\
      Later.ok (asLater r) = v /\
      Later.err (asLater r) = VUndefined
  | Earlier.ErrImpl _ _ e =>
      Earlier.ok r w = (Returned OptionTs.None, w) /\
      Earlier.err r w = OptionTs.Some e w /\
      Earlier.err r w
        = (Returned (OptionTs.SomeImpl (next_loc w) e), bumped w) /\
      Later.ok (asLater r) = VUndefined /\
      Later.err (asLater r) = e
  end
  /\ (exists o w', Earlier.ok r w = (Returned o, w')
                   /\ rawOf o = Later.ok (asLater r))
  /\ (exists o w', Earlier.err r w = (Returned o, w')
                   /\ rawOf o = Later.err (asLater r)).
Proof.
  destruct r as [self v|self trace e]; repeat split;
    eexists; eexists; split; reflexivity.
Qed.

(** C6.  For a container allocated before the call: [cloned()] on an [Ok]
    whose value can be deep-copied returns a new [Ok] (another container)
    holding a copy that is structurally equal to the value and shares no
    object with it, and warns about nothing; on an [Ok] whose value cannot
    be deep-copied it returns the original container and leaves exactly one
    more [console.warn] in the journal, naming the value and the exception,
    instead of throwing; on an [Err] it returns that very container and
    does nothing else, so the error is never cloned. *)
Theorem cloned_contract (r : Later.Result) (w : World) :
  resultAllocated w r = true ->
  match r with
  | Later.OkImpl self v =>
      if cloneable v then
        exists self' v' w',
          Later.cloned r w = (Returned (Later.OkImpl self' v'), w') /\
          self' <> self /\
          structEq v v' = true /\
          shareNoReference v v' /\
          journal w' = journal w
      else
        exists e w',
          Later.cloned r w = (Returned r, w') /\
          journal w' =
            journal w ++
            [ConsoleWarn [VString "Failed to structuredClone Ok value:"; v; e]]
  | Later.ErrImpl _ _ _ => Later.cloned r w = (Returned r, w)
  end.
Proof.
  destruct r as [self v|self trace e]; intros Halloc; [|reflexivity].
  simpl in Halloc. apply andb_true_iff in Halloc as [Hself Hv].
  apply Nat.ltb_lt in Hself.
  destruct (cloneable v) eqn:Hc.
  - destruct (structuredClone_cloneable v w Hc) as (v' & n' & Hrun & Hs & Hle & Hin).
    exists n', v', (bumped (mkWorld n' (stackText w) (journal w))).
    unfold Later.cloned, try_catch, bind. rewrite Hrun.
    repeat split; auto.
    + lia.
    + intros l Hl Hl'.
      unfold allocated in Hv. rewrite forallb_forall in Hv.
      specialize (Hv l Hl). apply Nat.ltb_lt in Hv.
      rewrite Forall_forall in Hin. specialize (Hin l Hl'). lia.
  - destruct (structuredClone_not_cloneable v w Hc) as (n' & Hrun).
    eexists. eexists.
    unfold Later.cloned, try_catch, bind. rewrite Hrun.
    split; reflexivity.
Qed.

End ResultFacts.

(* ===================================================================== *)
(** ** The function-wrapping adapter *)
(* ===================================================================== *)

Section AdapterFacts.

Variable fn : list Value -> Eff Value.
Variable args : list Value.
Variable w : World.

(** C2, as the code has it.  When [fn] returns [v], the wrapped call is
    [Ok(v)].  When [fn] throws [error]: with an [errorTransform] that
    returns [e] for [error], the wrapped call is [Err(e)]; without one, it
    is [Err(message)] when [error] is an [Error] instance with that
    message, and [Err(error)], the caught value itself, when [error] is not
    an [Error] instance.  In particular a function throwing the bare string
    "boom" is wrapped into [Err("boom")]. *)
Theorem wrapInResult_contract (errorTransform : option (Callback Value)) :
  match fn args w with
  | (Returned v, w1) =>
      Later.wrapInResult fn errorTransform args w = Later.Ok v w1
  | (Thrown error, w1) =>
      match errorTransform with
      | Some transform =>
          forall e w2,
            transform error w1 = (Returned e, w2) ->
            Later.wrapInResult fn errorTransform args w = Later.Err e w2
      | None =>
          (forall self message,
             error = VError self message ->
             Later.wrapInResult fn errorTransform args w
               = Later.Err (VString message) w1) /\
          (instanceofError error = false ->
             Later.wrapInResult fn errorTransform args w = Later.Err error w1)
      end
  end
  /\ Later.wrapInResult throwsBoom None args w = Later.Err (VString "boom") w.
Proof.
  split; [|reflexivity].
  unfold Later.wrapInResult, try_catch, bind.
  destruct (fn args w) as [[v|error] w1]; [reflexivity|].
  destruct errorTransform as [transform|].
  - intros e w2 Ht. now rewrite Ht.
  - split.
    + intros self message ->. reflexivity.
    + intros Hne. unfold ret. now rewrite Hne.
Qed.

(** C10.  When [fn] throws [error] and [errorTransform] in turn throws
    [exn] for it, the wrapped call throws [exn]: no [Result] comes back. *)
Theorem errorTransform_outside_catch (transform : Callback Value)
    (error exn : Value) (w1 w2 : World) :
  fn args w = (Thrown error, w1) ->
  transform error w1 = (Thrown exn, w2) ->
  Later.wrapInResult fn (Some transform) args w = (Thrown exn, w2).
Proof.
  intros Hfn Ht. unfold Later.wrapInResult, try_catch, bind.
  now rewrite Hfn, Ht.
Qed.

End AdapterFacts.

(* ===================================================================== *)
(** ** Runs on sample inputs *)
(* ===================================================================== *)

(** The constructor frames are dropped from the trace. *)
Example originTrace_sample :
  Later.originTrace (Some sampleStack) =
    ("    at divide (test/result.test.ts:10:22)" ++ LF ++
     "    at main (test/result.test.ts:15:20)")%string.
Proof. reflexivity. Qed.

Example expect_on_err_sample :
  thrownMessage
    ((r <- Later.Err (VString "failure") ;;
      Later.expect Utils.toString r "Value was an error") sampleWorld)
  = Some ("Value was an error: failure" ++ LF ++
          "    at divide (test/result.test.ts:10:22)" ++ LF ++
          "    at main (test/result.test.ts:15:20)")%string.
Proof. reflexivity. Qed.

Example unwrapErr_on_ok_sample :
  thrownMessage
    ((r <- Later.Ok (VNumber 5) ;; Later.unwrapErr Utils.toString r) sampleWorld)
  = Some "Tried to unwrap Ok value: 5".
Proof. reflexivity. Qed.

(** C2, refuted as worded: a thrown plain object [{ message: "x" }] carries
    a message field, yet the wrapped call is an [Err] of the object itself,
    not of "x" as the specification's wording gives. *)
Lemma wrapInResult_message_field_counterexample :
  (exists r w',
     Later.wrapInResult throwsMessageObject None [] sampleWorld
       = (Returned r, w') /\
     messageField (Later.err r) = Some (VString "x") /\
     Later.err r = VObject 10 [("message", VString "x")] /\
     Later.err r <> VString "x") /\
  (exists r w',
     wrapInResult_as_specified throwsMessageObject None [] sampleWorld
       = (Returned r, w') /\
     Later.err r = VString "x") /\
  Later.wrapInResult throwsMessageObject None [] sampleWorld
    <> wrapInResult_as_specified throwsMessageObject None [] sampleWorld.
Proof.
  split; [|split].
  - eexists. eexists. split; [reflexivity|].
    repeat split. discriminate.
  - eexists. eexists. split; reflexivity.
  - discriminate.
Qed.

Lemma wrapInResult_contract_witness :
  Later.wrapInResult returnsFive None [] sampleWorld
    = Later.Ok (VNumber 5) sampleWorld /\
  Later.wrapInResult throwsError None [] sampleWorld
    = Later.Err (VString "cannot divide by zero") (bumped sampleWorld) /\
  Later.wrapInResult throwsBoom None [] sampleWorld
    = Later.Err (VString "boom") sampleWorld /\
  Later.wrapInResult throwsError (Some toCode) [] sampleWorld
    = Later.Err (VObject 11 [("code", VNumber 500)])
        (bumped (bumped sampleWorld)).
Proof.
  split; [|split; [|split]].
  - exact (proj1 (wrapInResult_contract returnsFive [] sampleWorld None)).
  - exact (proj1 (proj1 (wrapInResult_contract throwsError [] sampleWorld None))
             10 "cannot divide by zero" eq_refl).
  - exact (proj2 (proj1 (wrapInResult_contract throwsBoom [] sampleWorld None))
             eq_refl).
  - exact (proj1 (wrapInResult_contract throwsError [] sampleWorld (Some toCode))
             (VObject 11 [("code", VNumber 500)])
             (bumped (bumped sampleWorld)) eq_refl).
Defined.

Lemma errorTransform_outside_catch_witness :
  throwsError [] sampleWorld
    = (Thrown (VError 10 "cannot divide by zero"), bumped sampleWorld) /\
  failingTransform (VError 10 "cannot divide by zero") (bumped sampleWorld)
    = (Thrown (VError 11 "transform failed"), bumped (bumped sampleWorld)) /\
  Later.wrapInResult throwsError (Some failingTransform) [] sampleWorld
    = (Thrown (VError 11 "transform failed"), bumped (bumped sampleWorld)).
Proof.
  split; [reflexivity|]. split; [reflexivity|].
  apply (errorTransform_outside_catch throwsError [] sampleWorld
           failingTransform (VError 10 "cannot divide by zero")
           (VError 11 "transform failed")
           (bumped sampleWorld) (bumped (bumped sampleWorld)));
    reflexivity.
Defined.

Lemma cloned_contract_witness :
  (resultAllocated sampleWorld sampleOk = true /\
   exists self' v' w',
     Later.cloned sampleOk sampleWorld
       = (Returned (Later.OkImpl self' v'), w') /\
     self' <> 3 /\
     structEq (VObject 4 [("a", VNumber 1)]) v' = true /\
     shareNoReference (VObject 4 [("a", VNumber 1)]) v' /\
     journal w' = journal sampleWorld) /\
  (resultAllocated sampleWorld sampleOkWithCallback = true /\
   exists e w',
     Later.cloned sampleOkWithCallback sampleWorld
       = (Returned sampleOkWithCallback, w') /\
     journal w' =
       journal sampleWorld ++
       [ConsoleWarn [VString "Failed to structuredClone Ok value:";
                     VObject 4 [("run", VFunction 5 "callback")]; e]]).
Proof.
  split; (split; [reflexivity|]).
  - exact (cloned_contract sampleOk sampleWorld eq_refl).
  - exact (cloned_contract sampleOkWithCallback sampleWorld eq_refl).
Defined.

(* ===================================================================== *)
(** ** The origin trace *)
(* ===================================================================== *)

Section TraceFacts.

Lemma split_lines_nonempty (s : string) : split_lines s <> [].
Proof.
  induction s as [|c s IH]; simpl; [discriminate|].
  destruct (Ascii.eqb c (ascii_of_nat 10)); [discriminate|].
  destruct (split_lines s); discriminate.
Qed.

Lemma join_lines_cons (x y : string) (rest : list string) :
  join_lines (x :: y :: rest) = (x ++ LF ++ join_lines (y :: rest))%string.
Proof. reflexivity. Qed.

(** Splitting at line feeds and joining with line feeds gives the text
    back. *)
Lemma join_split_lines (s : string) : join_lines (split_lines s) = s.
Proof.
  induction s as [|c s IH]; [reflexivity|]. simpl.
  destruct (Ascii.eqb c (ascii_of_nat 10)) eqn:Hc.
  - apply Ascii.eqb_eq in Hc. subst c.
    destruct (split_lines s) as [|piece pieces] eqn:Hs.
    + now destruct (split_lines_nonempty s).
    + rewrite join_lines_cons, IH. reflexivity.
  - destruct (split_lines s) as [|piece pieces] eqn:Hs.
    + now destruct (split_lines_nonempty s).
    + destruct pieces as [|piece' pieces].
      * unfold join_lines in *. simpl in *. congruence.
      * rewrite join_lines_cons. rewrite join_lines_cons in IH.
        rewrite <- IH. reflexivity.
Qed.

Lemma string_app_assoc (a b c : string) :
  ((a ++ b) ++ c = a ++ (b ++ c))%string.
Proof. induction a as [|x a IH]; simpl; [reflexivity|now rewrite IH]. Qed.

Lemma join_lines_app (xs ys : list string) :
  xs <> [] -> ys <> [] ->
  join_lines (xs ++ ys) = (join_lines xs ++ LF ++ join_lines ys)%string.
Proof.
  intros Hx Hy. induction xs as [|x xs IH]; [congruence|].
  destruct xs as [|x' xs].
  - destruct ys as [|y ys]; [congruence|]. reflexivity.
  - change ((x :: x' :: xs) ++ ys) with (x :: x' :: (xs ++ ys)).
    rewrite !join_lines_cons.
    change (x' :: xs ++ ys) with ((x' :: xs) ++ ys).
    rewrite IH by discriminate.
    now rewrite !string_app_assoc.
Qed.

(** The loop walks over a run of constructor frames and stops at the first
    line that is not one, or at the end. *)
Lemma scanFrames_decompose (fromHere : list string) :
  forall i,
  exists frames kept,
    fromHere = frames ++ kept /\
    Later.scanFrames fromHere i = i + List.length frames /\
    forallb isConstructorFrame frames = true /\
    match kept with
    | [] => True
    | line :: _ => isConstructorFrame line = false
    end.
Proof.
  induction fromHere as [|line rest IH]; intros i.
  - exists [], []. simpl. repeat split; auto.
  - simpl.
    destruct (truthy_string line
              && (includes "ErrImpl" line || includes " Err " line)) eqn:Hf.
    + destruct (IH (S i)) as (frames & kept & Heq & Hk & Hall & Hkept).
      exists (line :: frames), kept. simpl. repeat split.
      * now rewrite Heq.
      * rewrite Hk. lia.
      * unfold isConstructorFrame at 1. now rewrite Hf, Hall.
      * exact Hkept.
    + exists [], (line :: rest). simpl. repeat split; auto.
Qed.

(** X1.  The stack lines fall into a header line, a run of constructor
    frames and the lines kept: the trace is the kept lines joined, its first
    line is not a constructor frame, and only the header and constructor
    frames were dropped. *)
Theorem originTrace_drops_constructor_frames (raw : option string) :
  exists header frames kept,
    split_lines (string_or raw "") = header :: frames ++ kept /\
    forallb isConstructorFrame frames = true /\
    match kept with
    | [] => True
    | line :: _ => isConstructorFrame line = false
    end /\
    Later.originTrace raw = join_lines kept.
Proof.
  unfold Later.originTrace.
  destruct (split_lines (string_or raw "")) as [|header rest] eqn:Hs.
  - now destruct (split_lines_nonempty (string_or raw "")).
  - change (skipn 1 (header :: rest)) with rest.
    destruct (scanFrames_decompose rest 1)
      as (frames & kept & Heq & Hk & Hall & Hkept).
    exists header, frames, kept. rewrite Hk. repeat split; auto.
    + now rewrite Heq.
    + subst rest. f_equal.
      change (1 + List.length frames) with (S (List.length frames)).
      simpl. rewrite skipn_app, skipn_all, Nat.sub_diag. reflexivity.
Qed.

(** X2.  The trace is a tail of the stack text cut at a line feed: either
    it is empty, or the stack text is some dropped text, a line feed, and
    the trace. *)
Theorem originTrace_is_tail_of_stack (raw : option string) :
  Later.originTrace raw = EmptyString \/
  exists dropped,
    string_or raw "" = (dropped ++ LF ++ Later.originTrace raw)%string.
Proof.
  destruct (originTrace_drops_constructor_frames raw)
    as (header & frames & kept & Hs & _ & _ & Ht).
  destruct kept as [|line kept].
  - left. now rewrite Ht.
  - right. exists (join_lines (header :: frames)).
    rewrite Ht, <- (join_split_lines (string_or raw "")), Hs.
    change (header :: frames ++ line :: kept)
      with ((header :: frames) ++ line :: kept).
    apply join_lines_app; discriminate.
Qed.

(** X3.  The later [Err] is built whatever the engine reports as stack, with
    an empty trace when there is no stack text or an empty one; the earlier
    [Err] is built exactly when there is a stack text, and throws
    otherwise. *)
Theorem Err_without_stack (e : Value) (w : World) :
  (exists trace,
     Later.Err e w
       = (Returned (Later.ErrImpl (next_loc w) trace e), bumped (bumped w)) /\
     (string_or (stackText w) "" = EmptyString -> trace = EmptyString)) /\
  returns (Earlier.Err e w)
    = match stackText w with Some _ => true | None => false end /\
  (forall text,
     stackText w = Some text ->
     exists trace,
       Earlier.Err e w
         = (Returned (Earlier.ErrImpl (next_loc w) trace e),
            bumped (bumped w))).
Proof.
  split; [|split].
  - exists (Later.originTrace (stackText w)). split; [reflexivity|].
    intros H. unfold Later.originTrace. now rewrite H.
  - unfold Earlier.Err, returns, bind, alloc, captureStack, newError, readStack,
      bind, alloc, ret. simpl.
    destruct (stackText w); reflexivity.
  - intros text Ht. destruct w as [n st j]. simpl in Ht. subst st.
    eexists. reflexivity.
Qed.

Lemma Err_without_stack_witness :
  exists trace,
    Earlier.Err (VString "failure") sampleWorld
      = (Returned (Earlier.ErrImpl 10 trace (VString "failure")),
         bumped (bumped sampleWorld)).
Proof.
  exact (proj2 (proj2 (Err_without_stack (VString "failure") sampleWorld))
           sampleStack eq_refl).
Defined.

End TraceFacts.

(* ===================================================================== *)
(** ** Laws of the combinators *)
(* ===================================================================== *)

Section CombinatorLaws.

Lemma invocations_emit (tag tag' : string) (v : Value) (w : World) :
  invocations tag (snd (emit (Invoked tag' v) w))
    = invocations tag w + (if String.eqb tag' tag then 1 else 0).
Proof.
  unfold invocations, emit. simpl.
  rewrite filter_app, length_app. simpl.
  destruct (String.eqb tag' tag); reflexivity.
Qed.

Lemma counting_run (tag : string) (v : Value) (w : World) :
  counting tag v w
    = (Returned VUndefined,
       mkWorld (next_loc w) (stackText w) (journal w ++ [Invoked tag v])).
Proof. reflexivity. Qed.

Lemma invocations_counting (tag tag' : string) (v : Value) (w : World) :
  invocations tag (snd (counting tag' v w))
    = invocations tag w + (if String.eqb tag' tag then 1 else 0).
Proof. rewrite counting_run. apply (invocations_emit tag tag' v w). Qed.

(** X4.  [and] and [or] are associative and idempotent, each absorbs the
    other, and they act on the variant as conjunction and disjunction. *)
Theorem and_or_algebra (a b c : Later.Result) :
  Later.and (Later.and a b) c = Later.and a (Later.and b c) /\
  Later.or (Later.or a b) c = Later.or a (Later.or b c) /\
  Later.and a a = a /\
  Later.or a a = a /\
  Later.or a (Later.and a b) = a /\
  Later.and a (Later.or a b) = a /\
  Later.isOk (Later.and a b) = Later.isOk a && Later.isOk b /\
  Later.isOk (Later.or a b) = Later.isOk a || Later.isOk b.
Proof.
  destruct a as [la va|la ta ea], b as [lb vb|lb tb eb];
    repeat split.
Qed.




(** X8.  Mapping twice with effect-free functions gives a container
    value-equal to mapping once with their composition, on both channels,
    and journals nothing. *)
Theorem map_composition (r : Later.Result) (f g : Value -> Value)
    (w : World) :
  (exists r1 w1 r2 w2,
     (r' <- Later.map r (pure f) ;; Later.map r' (pure g)) w
       = (Returned r1, w1) /\
     Later.map r (pure (fun x => g (f x))) w = (Returned r2, w2) /\
     valueEqual r1 r2 = true /\
     journal w1 = journal w /\ journal w2 = journal w) /\
  (exists r1 w1 r2 w2,
     (r' <- Later.mapErr r (pure f) ;; Later.mapErr r' (pure g)) w
       = (Returned r1, w1) /\
     Later.mapErr r (pure (fun x => g (f x))) w = (Returned r2, w2) /\
     valueEqual r1 r2 = true /\
     journal w1 = journal w /\ journal w2 = journal w).
Proof.
  split; destruct r as [self x|self trace e];
    do 4 eexists; (split; [reflexivity|]); (split; [reflexivity|]);
    (split; [simpl; apply structEq_refl|]); split; reflexivity.
Qed.

(** X9.  [mapErr] on an [Err] does not carry the trace over: the new [Err]
    holds the mapped error and the origin trace of the stack at the moment
    of the [mapErr] call, whatever trace the original held. *)
Theorem mapErr_recaptures_trace (self : loc) (trace : string) (e e' : Value)
    (f : Callback Value) (w w1 : World) :
  f e w = (Returned e', w1) ->
  Later.mapErr (Later.ErrImpl self trace e) f w
    = (Returned
         (Later.ErrImpl (next_loc w1) (Later.originTrace (stackText w1)) e'),
       bumped (bumped w1)).
Proof.
  intros Hf. unfold Later.mapErr, bind. rewrite Hf. reflexivity.
Qed.

Lemma mapErr_recaptures_trace_witness :
  Later.mapErr (Later.ErrImpl 3 "    at elsewhere (lib.ts:1:1)" (VNumber 7))
      (pure (fun x => VArray 0 [x])) sampleWorld
    = (Returned
         (Later.ErrImpl 10
            ("    at divide (test/result.test.ts:10:22)" ++ LF ++
             "    at main (test/result.test.ts:15:20)")
            (VArray 0 [VNumber 7])),
       bumped (bumped sampleWorld)).
Proof.
  exact (mapErr_recaptures_trace 3 "    at elsewhere (lib.ts:1:1)"
           (VNumber 7) (VArray 0 [VNumber 7])
           (pure (fun x => VArray 0 [x])) sampleWorld sampleWorld eq_refl).
Defined.

(** X10.  The defaulting operations agree with one another: [unwrapOr(d)]
    is [mapOr(d, id)] and [unwrapOrElse] with a constant; [unwrapOrElse(fn)]
    is [mapOrElse(fn, id)]; [mapOr(d, fn)] is [mapOrElse] with a constant
    default; and on an [Ok] all of them ignore the default. *)
Theorem defaulting_family_consistent (r : Later.Result) (d d' : Value)
    (fn dfn : Callback Value) (w : World) :
  Later.mapOr r d (fun x => ret x) w = (Returned (Later.unwrapOr r d), w) /\
  Later.unwrapOrElse r (fun _ => ret d) w
    = (Returned (Later.unwrapOr r d), w) /\
  Later.unwrapOrElse r dfn w = Later.mapOrElse r dfn (fun x => ret x) w /\
  Later.mapOr r d fn w = Later.mapOrElse r (fun _ => ret d) fn w /\
  (Later.isOk r = true ->
     Later.unwrapOr r d = Later.unwrapOr r d' /\
     Later.unwrapOr r d = Later.ok r /\
     Later.mapOr r d fn w = Later.mapOr r d' fn w).
Proof. destruct r; repeat split; discriminate. Qed.

Lemma defaulting_family_consistent_witness :
  Later.unwrapOr sampleOk (VNumber 0) = Later.unwrapOr sampleOk VNull /\
  Later.unwrapOr sampleOk (VNumber 0) = Later.ok sampleOk /\
  Later.mapOr sampleOk (VNumber 0) toCode sampleWorld
    = Later.mapOr sampleOk VNull toCode sampleWorld.
Proof.
  exact (proj2 (proj2 (proj2 (proj2
           (defaulting_family_consistent sampleOk (VNumber 0) VNull
              toCode toCode sampleWorld)))) eq_refl).
Defined.

End CombinatorLaws.

(* ===================================================================== *)
(** ** What the combinators never do *)
(* ===================================================================== *)

Section ThrowFacts.

(** X11.  No callback-taking combinator throws on its own account: when one
    ends with a throw, its callback was run on the wrapped value and ended
    with that same throw in that same world. *)
Theorem combinators_only_forward_throws (r : Later.Result)
    (p : Callback bool) (f g : Callback Value) (k : Callback Later.Result)
    (d : Value) (w w' : World) (exn : Value) :
  (Later.isOkAnd r p w = (Thrown exn, w') ->
     Later.isOk r = true /\ p (Later.ok r) w = (Thrown exn, w')) /\
  (Later.isErrAnd r p w = (Thrown exn, w') ->
     Later.isErr r = true /\ p (Later.err r) w = (Thrown exn, w')) /\
  (Later.map r f w = (Thrown exn, w') ->
     Later.isOk r = true /\ f (Later.ok r) w = (Thrown exn, w')) /\
  (Later.mapErr r f w = (Thrown exn, w') ->
     Later.isErr r = true /\ f (Later.err r) w = (Thrown exn, w')) /\
  (Later.mapOr r d f w = (Thrown exn, w') ->
     Later.isOk r = true /\ f (Later.ok r) w = (Thrown exn, w')) /\
  (Later.mapOrElse r g f w = (Thrown exn, w') ->
     (Later.isOk r = true /\ f (Later.ok r) w = (Thrown exn, w')) \/
     (Later.isErr r = true /\ g (Later.err r) w = (Thrown exn, w'))) /\
  (Later.inspect r f w = (Thrown exn, w') ->
     Later.isOk r = true /\ f (Later.ok r) w = (Thrown exn, w')) /\
  (Later.inspectErr r f w = (Thrown exn, w') ->
     Later.isErr r = true /\ f (Later.err r) w = (Thrown exn, w')) /\
  (Later.unwrapOrElse r f w = (Thrown exn, w') ->
     Later.isErr r = true /\ f (Later.err r) w = (Thrown exn, w')) /\
  (Later.andThen r k w = (Thrown exn, w') ->
     Later.isOk r = true /\ k (Later.ok r) w = (Thrown exn, w')) /\
  (Later.orElse r k w = (Thrown exn, w') ->
     Later.isErr r = true /\ k (Later.err r) w = (Thrown exn, w')).
Proof.
  destruct r as [self x|self trace e]; simpl;
    unfold bind, ret, Later.Ok, Later.Err, bind, alloc, captureStack, newError,
      readStack, bind, alloc, ret;
    repeat split; try discriminate; auto;
    try (destruct (f x w) as [[y|ex] w1] eqn:Hf; simpl in *;
         try discriminate; congruence);
    try (destruct (f e w) as [[y|ex] w1] eqn:Hf; simpl in *;
         try discriminate; congruence).
Qed.

Lemma combinators_only_forward_throws_witness :
  Later.isErr (Later.ErrImpl 3 "" (VNumber 7)) = true /\
  failingTransform (Later.err (Later.ErrImpl 3 "" (VNumber 7))) sampleWorld
    = (Thrown (VError 10 "transform failed"), bumped sampleWorld).
Proof.
  exact (proj1 (proj2 (proj2 (proj2 (proj2 (proj2 (proj2 (proj2 (proj2
           (combinators_only_forward_throws
              (Later.ErrImpl 3 "" (VNumber 7))
              (pure (fun _ => true)) failingTransform failingTransform
              (pure (fun _ => sampleOk)) VNull
              sampleWorld (bumped sampleWorld)
              (VError 10 "transform failed")))))))))) eq_refl).
Defined.

(** X12.  [cloned()] never throws, keeps the variant, and returns a
    container value-equal to the one it was called on, whatever the wrapped
    value is. *)
Theorem cloned_preserves_value (r : Later.Result) (w : World) :
  exists r' w',
    Later.cloned r w = (Returned r', w') /\
    Later.isOk r' = Later.isOk r /\
    valueEqual r' r = true.
Proof.
  destruct r as [self v|self trace e].
  - destruct (cloneable v) eqn:Hc.
    + destruct (structuredClone_cloneable v w Hc)
        as (v' & n' & Hrun & Hs & _ & _).
      eexists. eexists. unfold Later.cloned, try_catch, bind.
      rewrite Hrun. split; [reflexivity|]. split; [reflexivity|].
      simpl. clear - Hs. revert v' Hs.
      assert (Hsym : forall a b, structEq a b = true -> structEq b a = true).
      { induction a as [ | | x | x | x | l vs IH | l fs IH | l m | l n ]
          using Value_deep_ind; intros [ | | y | y | y | l' ys | l' ys | l' m' | l' n' ];
          simpl; try discriminate; auto.
        - destruct x, y; auto.
        - rewrite !Z.eqb_eq. auto.
        - rewrite !String.eqb_eq. auto.
        - revert ys. induction IH as [|a vs Ha _ IHvs]; intros [|y ys];
            simpl; try discriminate; auto.
          intros H. apply andb_true_iff in H as [H1 H2].
          now rewrite (Ha y H1), (IHvs ys H2).
        - revert ys. induction IH as [|a fs Ha _ IHfs]; intros [|y ys];
            simpl; try discriminate; auto.
          intros H. apply andb_true_iff in H as [H1 H2].
          apply andb_true_iff in H1 as [Hk Hv].
          rewrite (Ha (snd y) Hv), (IHfs ys H2).
          apply String.eqb_eq in Hk. rewrite Hk, String.eqb_refl.
          reflexivity.
        - rewrite !String.eqb_eq. auto.
        - rewrite !String.eqb_eq. auto. }
      intros v' Hs. now apply Hsym.
    + destruct (structuredClone_not_cloneable v w Hc) as (n' & Hrun).
      eexists. eexists. unfold Later.cloned, try_catch, bind.
      rewrite Hrun. split; [reflexivity|]. split; [reflexivity|].
      simpl. apply structEq_refl.
  - exists (Later.ErrImpl self trace e), w.
    split; [reflexivity|]. split; [reflexivity|].
    simpl. apply structEq_refl.
Qed.

End ThrowFacts.

(* ===================================================================== *)
(** ** How often callbacks run *)
(* ===================================================================== *)

Section CallCounts.

(** X13.  [inspect] runs its callback exactly once on an [Ok] and never on
    an [Err], [inspectErr] the other way round, and both hand back the very
    container they were called on. *)
Theorem inspect_call_count (r : Later.Result) (tag : string) (w : World) :
  (exists w',
     Later.inspect r (counting tag) w = (Returned r, w') /\
     invocations tag w'
       = invocations tag w + (if Later.isOk r then 1 else 0)) /\
  (exists w',
     Later.inspectErr r (counting tag) w = (Returned r, w') /\
     invocations tag w'
       = invocations tag w + (if Later.isErr r then 1 else 0)).
Proof.
  destruct r as [self v|self trace e]; split; eexists;
    (split; [reflexivity|]); simpl;
    try (apply (invocations_emit tag tag)
         || (rewrite Nat.add_0_r; reflexivity)).
  - pose proof (invocations_emit tag tag v w) as H.
    rewrite String.eqb_refl in H. exact H.
  - pose proof (invocations_emit tag tag e w) as H.
    rewrite String.eqb_refl in H. exact H.
Qed.

(** X14.  [mapOrElse] runs exactly one of its two callbacks, once: the
    mapping one on an [Ok], the default one on an [Err]; [unwrapOrElse] runs
    its callback once on an [Err] and never on an [Ok]. *)
Theorem mapOrElse_runs_exactly_one (r : Later.Result) (tagDefault tagFn : string)
    (w : World) :
  tagDefault <> tagFn ->
  (exists x w',
     Later.mapOrElse r (counting tagDefault) (counting tagFn) w
       = (Returned x, w') /\
     invocations tagFn w'
       = invocations tagFn w + (if Later.isOk r then 1 else 0) /\
     invocations tagDefault w'
       = invocations tagDefault w + (if Later.isOk r then 0 else 1)) /\
  (exists x w',
     Later.unwrapOrElse r (counting tagDefault) w = (Returned x, w') /\
     invocations tagDefault w'
       = invocations tagDefault w + (if Later.isOk r then 0 else 1)).
Proof.
  intros Hne.
  assert (Hdf : String.eqb tagDefault tagFn = false)
    by now apply String.eqb_neq.
  assert (Hfd : String.eqb tagFn tagDefault = false)
    by (apply String.eqb_neq; congruence).
  destruct r as [self v|self trace e]; split.
  - exists VUndefined. eexists. split; [apply counting_run|]. split.
    + pose proof (invocations_emit tagFn tagFn v w) as H.
      rewrite String.eqb_refl in H. exact H.
    + pose proof (invocations_emit tagDefault tagFn v w) as H.
      rewrite Hfd in H. exact H.
  - exists v, w. split; [reflexivity|]. simpl. lia.
  - exists VUndefined. eexists. split; [apply counting_run|]. split.
    + pose proof (invocations_emit tagFn tagDefault e w) as H.
      rewrite Hdf in H. exact H.
    + pose proof (invocations_emit tagDefault tagDefault e w) as H.
      rewrite String.eqb_refl in H. exact H.
  - exists VUndefined. eexists. split; [apply counting_run|].
    pose proof (invocations_emit tagDefault tagDefault e w) as H.
    rewrite String.eqb_refl in H. exact H.
Qed.

Lemma mapOrElse_runs_exactly_one_witness :
  exists x w',
    Later.mapOrElse sampleOk (counting "default") (counting "fn") sampleWorld
      = (Returned x, w') /\
    invocations "fn" w' = invocations "fn" sampleWorld + 1 /\
    invocations "default" w' = invocations "default" sampleWorld + 0.
Proof.
  assert (Hne : "default" <> "fn") by discriminate.
  exact (proj1 (mapOrElse_runs_exactly_one sampleOk "default" "fn"
                  sampleWorld Hne)).
Defined.

End CallCounts.

(* ===================================================================== *)
(** ** The adapters, further *)
(* ===================================================================== *)

Section AdapterFurther.

Variable fn : list Value -> Eff Value.
Variable args : list Value.
Variable w : World.

(** X15.  Without an [errorTransform] the wrapped call always comes back
    with a [Result], whatever [fn] does, and that [Result] is an [Ok]
    exactly when [fn] returned. *)
Theorem wrapInResult_default_never_throws :
  exists r w',
    Later.wrapInResult fn None args w = (Returned r, w') /\
    Later.isOk r = returns (fn args w).
Proof.
  unfold Later.wrapInResult, try_catch, bind, returns.
  destruct (fn args w) as [[v|error] w1]; simpl.
  - eexists. eexists. split; reflexivity.
  - eexists. eexists. split; reflexivity.
Qed.

(** X16.  The earlier [ResultWrapper] is [Ok] of what [fn] returns and
    [Err] of what [fn] throws, the caught value kept as it is.  For a thrown
    [Error] instance, with a stack text at hand, the earlier wrapper holds
    the [Error] itself where the later one holds its message. *)
Theorem ResultWrapper_keeps_caught_value :
  Earlier.ResultWrapper fn args w
    = match fn args w with
      | (Returned v, w1) => Earlier.Ok v w1
      | (Thrown error, w1) => Earlier.Err error w1
      end /\
  (forall self message w1 text,
     fn args w = (Thrown (VError self message), w1) ->
     stackText w1 = Some text ->
     exists r1 w1' r2 w2',
       Earlier.ResultWrapper fn args w = (Returned r1, w1') /\
       Earlier.isErr r1 = true /\
       payload r1 = VError self message /\
       Later.wrapInResult fn None args w = (Returned r2, w2') /\
       Later.isErr r2 = true /\
       Later.err r2 = VString message).
Proof.
  split.
  - unfold Earlier.ResultWrapper, try_catch, bind.
    destruct (fn args w) as [[v|error] w1]; reflexivity.
  - intros self message w1 text Hfn Hst.
    unfold Earlier.ResultWrapper, Later.wrapInResult, try_catch, bind.
    rewrite Hfn. destruct w1 as [n st j]. simpl in Hst. subst st.
    do 4 eexists. split; [reflexivity|].
    repeat split.
Qed.

End AdapterFurther.

Lemma ResultWrapper_keeps_caught_value_witness :
  exists r1 w1' r2 w2',
    Earlier.ResultWrapper throwsError [] sampleWorld = (Returned r1, w1') /\
    Earlier.isErr r1 = true /\
    payload r1 = VError 10 "cannot divide by zero" /\
    Later.wrapInResult throwsError None [] sampleWorld = (Returned r2, w2') /\
    Later.isErr r2 = true /\
    Later.err r2 = VString "cannot divide by zero".
Proof.
  exact (proj2 (ResultWrapper_keeps_caught_value throwsError [] sampleWorld)
           10 "cannot divide by zero" (bumped sampleWorld) sampleStack
           eq_refl eq_refl).
Defined.

(* ===================================================================== *)
(** ** Iteration, further *)
(* ===================================================================== *)

Section IterationFurther.








End IterationFurther.

(* ===================================================================== *)
(** ** The earlier revision and Option, further *)
(* ===================================================================== *)

Section EarlierFurther.

Variable toString : Value -> string.

(** X19.  In the earlier revision [ok()] and [err()] keep the variant:
    [ok()] is a [Some] exactly on an [Ok], [err()] exactly on an [Err], so
    exactly one of the two is a [Some]; what that [Some] holds is what the
    container holds, and defaulting through [ok()] is [unwrapOr]. *)
Theorem earlier_ok_err_keep_variant (r : Earlier.Result) (w : World) :
  exists o e w1 w2,
    Earlier.ok r w = (Returned o, w1) /\
    Earlier.err r w = (Returned e, w2) /\
    OptionTs.isSome o = Earlier.isOk r /\
    OptionTs.isSome e = Earlier.isErr r /\
    OptionTs.isNone o = OptionTs.isSome e /\
    (forall d, OptionTs.unwrapOr o d = Earlier.unwrapOr r d) /\
    (forall d, OptionTs.unwrapOr (if Earlier.isOk r then o else e) d
               = payload r).
Proof.
  destruct r as [self v|self trace x]; do 4 eexists;
    (split; [reflexivity|]); (split; [reflexivity|]); repeat split.
Qed.

(** X20.  On an [Option], [unwrap()] and [expect(m)] return exactly when
    [isSome()] holds, and then give what [unwrapOr] gives for any default;
    [isNone()] is the negation of [isSome()]; [isSomeAnd(p)] is the call of
    [p] on a [Some] and [false] without running [p] on [None]. *)
Theorem option_operations_consistent (o : OptionTs.Option) (m : string)
    (d : Value) (p : Callback bool) (w : World) :
  returns (OptionTs.unwrap o w) = OptionTs.isSome o /\
  returns (OptionTs.expect o m w) = OptionTs.isSome o /\
  OptionTs.isNone o = negb (OptionTs.isSome o) /\
  (OptionTs.isSome o = true ->
     OptionTs.unwrap o w = (Returned (OptionTs.unwrapOr o d), w) /\
     OptionTs.expect o m w = (Returned (OptionTs.unwrapOr o d), w) /\
     OptionTs.isSomeAnd o p w = p (OptionTs.unwrapOr o d) w) /\
  (OptionTs.isSome o = false ->
     OptionTs.isSomeAnd o p w = (Returned false, w) /\
     forall tag,
       invocations tag (snd (OptionTs.isSomeAnd o (tracked tag p) w))
         = invocations tag w).
Proof. destruct o as [self v|]; repeat split; discriminate. Qed.

Lemma option_operations_consistent_witness :
  OptionTs.unwrap (OptionTs.SomeImpl 3 (VNumber 5)) sampleWorld
    = (Returned (OptionTs.unwrapOr (OptionTs.SomeImpl 3 (VNumber 5)) VNull),
       sampleWorld) /\
  OptionTs.isSomeAnd OptionTs.None (pure (fun _ => true)) sampleWorld
    = (Returned false, sampleWorld).
Proof.
  split.
  - exact (proj1 (proj1 (proj2 (proj2 (proj2
             (option_operations_consistent (OptionTs.SomeImpl 3 (VNumber 5))
                "m" VNull (pure (fun _ => true)) sampleWorld)))) eq_refl)).
  - exact (proj1 (proj2 (proj2 (proj2 (proj2
             (option_operations_consistent OptionTs.None
                "m" VNull (pure (fun _ => true)) sampleWorld)))) eq_refl)).
Defined.

(** X21.  Every operation the earlier revision has, other than [ok()],
    [err()] and iteration, behaves as the later revision's operation of the
    same name on the same container. *)
Theorem revisions_agree_on_shared_operations (r : Earlier.Result)
    (m : string) (d : Value) (p : Callback bool) (w : World) :
  Earlier.isOk r = Later.isOk (asLater r) /\
  Earlier.isErr r = Later.isErr (asLater r) /\
  Earlier.isOkAnd r p w = Later.isOkAnd (asLater r) p w /\
  Earlier.isErrAnd r p w = Later.isErrAnd (asLater r) p w /\
  Earlier.expect toString r m w = Later.expect toString (asLater r) m w /\
  Earlier.unwrap toString r w = Later.unwrap toString (asLater r) w /\
  Earlier.unwrapOr r d = Later.unwrapOr (asLater r) d.
Proof. destruct r; repeat split. Qed.

End EarlierFurther.

(* ===================================================================== *)
(** ** main.ts *)
(* ===================================================================== *)

Section MainFacts.

Variable quotient : Z -> Z -> Value.

(** X22.  With a stack text at hand, the three divisions of [main.ts] fail
    together: [divideResult] is an [Err], [divideOption] is [None] and the
    wrapped [divide] is an [Err] exactly when the dividend or the divisor is
    zero (a zero dividend counts as a failure too).  When neither is zero all
    three hold the quotient; when one is, [divideResult] holds the
    [DivideByZero] text while the wrapped [divide] holds the thrown [Error]
    instance with that text as message. *)
Theorem divisions_fail_together (a b : Z) (w : World) (text : string) :
  stackText w = Some text ->
  exists r o rw w1 w2 w3,
    Main.divideResult quotient a b w = (Returned r, w1) /\
    Main.divideOption quotient a b w = (Returned o, w2) /\
    Main.wrappedDivide quotient a b w = (Returned rw, w3) /\
    Earlier.isErr r = (Z.eqb a 0 || Z.eqb b 0) /\
    OptionTs.isNone o = (Z.eqb a 0 || Z.eqb b 0) /\
    Earlier.isErr rw = (Z.eqb a 0 || Z.eqb b 0) /\
    returns (Main.divide quotient a b w) = negb (Z.eqb a 0 || Z.eqb b 0) /\
    (a <> 0%Z -> b <> 0%Z ->
       payload r = quotient a b /\ rawOf o = quotient a b /\
       payload rw = quotient a b) /\
    (a = 0%Z \/ b = 0%Z ->
       payload r = Main.DivideByZero /\
       exists self, payload rw = VError self "Cannot divide by zero").
Proof.
  intros Hst. destruct w as [n st j]. simpl in Hst. subst st.
  unfold Main.divideResult, Main.divideOption, Main.wrappedDivide,
    Main.divide, Earlier.ResultWrapper, try_catch, bind.
  destruct (Z.eqb a 0 || Z.eqb b 0) eqn:Hz.
  - do 6 eexists. do 7 (split; [reflexivity|]). split.
    + intros Ha Hb. apply orb_true_iff in Hz.
      destruct Hz as [Hz|Hz]; apply Z.eqb_eq in Hz; contradiction.
    + intros _. split; [reflexivity|]. eexists. reflexivity.
  - do 6 eexists. do 7 (split; [reflexivity|]). split.
    + intros _ _. repeat split.
    + apply orb_false_iff in Hz. destruct Hz as [Ha Hb].
      apply Z.eqb_neq in Ha, Hb. intros [H|H]; contradiction.
Qed.

End MainFacts.

Lemma divisions_fail_together_witness :
  exists r o rw w1 w2 w3,
    Main.divideResult exactQuotient 10 2 sampleWorld = (Returned r, w1) /\
    Main.divideOption exactQuotient 10 2 sampleWorld = (Returned o, w2) /\
    Main.wrappedDivide exactQuotient 10 2 sampleWorld = (Returned rw, w3) /\
    Earlier.isErr r = false /\
    OptionTs.isNone o = false /\
    Earlier.isErr rw = false /\
    returns (Main.divide exactQuotient 10 2 sampleWorld) = true /\
    (10%Z <> 0%Z -> 2%Z <> 0%Z ->
       payload r = VNumber 5 /\ rawOf o = VNumber 5 /\
       payload rw = VNumber 5) /\
    (10%Z = 0%Z \/ 2%Z = 0%Z ->
       payload r = Main.DivideByZero /\
       exists self, payload rw = VError self "Cannot divide by zero").
Proof.
  exact (divisions_fail_together exactQuotient 10 2 sampleWorld sampleStack
           eq_refl).
Defined.
